(** * NL → SQL playground: the request lifecycle and the result renderer

    A shallow embedding of [frontend/src/App.tsx]: the [App] component, its
    five [useState] cells, the asynchronous [handleSubmit] handler and the
    JSX it returns.

    - [JS]      the JavaScript values and operators the component relies on
                (property lookup, [??], [||], truthiness, [String()]);
    - [Fetch]   the slice of the Fetch API that [handleSubmit] consumes;
    - [App]     the component state, [handleSubmit] split at its suspension
                point, and the element tree returned by the render function;
    - [Runtime] the event loop around the component: submissions and replies
                interleaved in any order;
    - [Spec]    the words of the specification that the code has no name
                for (trimming, lifecycle phases, the cell of section 4.3);
    - [Samples] replies and payloads used in the examples. *)

From stdpp Require Import base option list strings pretty gmap.

Set Warnings "-register-all".
Local Open Scope string_scope.
Local Open Scope list_scope.
Local Open Scope nat_scope.

(* ===================================================================== *)
(** ** JavaScript values *)
(* ===================================================================== *)

Module JS.

(** [Number.MAX_SAFE_INTEGER], 2^53 - 1. *)
Definition MAX_SAFE_INTEGER : Z := 9007199254740991.

(** The Numbers of the model: the integers of magnitude at most
    [MAX_SAFE_INTEGER].  Each is exact as a double, and [String()] prints
    its decimal digits.  Fractions and larger magnitudes, whose printing
    follows the shortest round-trip digits of the double, are not values
    of the model. *)
Record safe_integer : Type := SafeInteger {
  integer : Z;
  integer_safe : Is_true (Z.abs integer <=? MAX_SAFE_INTEGER)%Z
}.

(** The values that reach the renderer.  Own properties of a row come out of
    [res.json()], so they are JSON values; [JUndefined] is what a property
    lookup yields for a key that is found nowhere, and [JNative] is a
    built-in function object, which a lookup can find on [Object.prototype]. *)
Inductive jsval : Type :=
  | JUndefined
  | JNull
  | JBool (b : bool)
  | JNumber (n : safe_integer)
  | JStr (s : string)
  | JArr (items : list jsval)
  | JObj (props : list (string * jsval))
  | JNative (name : string).

(** A Number written as an integer literal; it is well-typed only when
    the literal is a safe integer. *)
Abbreviation JNum z := (JNumber (SafeInteger z I)).

(** An ordinary object created by [JSON.parse]: its own enumerable
    properties, each key at most once. *)
Definition object : Type := list (string * jsval).

(** [Object.prototype.hasOwnProperty]-style lookup of an own property. *)
Fixpoint own (o : object) (key : string) : option jsval :=
  match o with
  | [] => None
  | (k, v) :: rest => if decide (k = key) then Some v else own rest key
  end.

(** The properties every ordinary object inherits from [Object.prototype].
    The [__proto__] accessor answers with [Object.prototype] itself, an
    object without JSON properties. *)
Definition Object_prototype : object :=
  [ ("constructor", JNative "Object");
    ("__defineGetter__", JNative "__defineGetter__");
    ("__defineSetter__", JNative "__defineSetter__");
    ("hasOwnProperty", JNative "hasOwnProperty");
    ("__lookupGetter__", JNative "__lookupGetter__");
    ("__lookupSetter__", JNative "__lookupSetter__");
    ("isPrototypeOf", JNative "isPrototypeOf");
    ("propertyIsEnumerable", JNative "propertyIsEnumerable");
    ("toString", JNative "toString");
    ("valueOf", JNative "valueOf");
    ("__proto__", JObj []);
    ("toLocaleString", JNative "toLocaleString") ].

(** [o[key]]: the own property if there is one, else the inherited one,
    else [undefined]. *)
Definition Get (o : object) (key : string) : jsval :=
  match own o key with
  | Some v => v
  | None => default JUndefined (own Object_prototype key)
  end.

(** [v === null || v === undefined] *)
Definition nullish (v : jsval) : bool :=
  match v with
  | JUndefined | JNull => true
  | _ => false
  end.

(** [a ?? b] *)
Definition nullish_coalesce (a b : jsval) : jsval :=
  if nullish a then b else a.

(** [Boolean(s)] for [s : string | null]. *)
Definition truthy_string (s : option string) : bool :=
  match s with
  | Some s => negb (String.eqb s "")
  | None => false
  end.

(** [a || b] on strings: the empty string is the only falsy one. *)
Definition or_else (a b : string) : string :=
  if decide (a = "") then b else a.

(** [Array.prototype.join] with the given separator, on elements already
    converted. *)
Fixpoint join (sep : string) (parts : list string) : string :=
  match parts with
  | [] => ""
  | [p] => p
  | p :: rest => p +:+ sep +:+ join sep rest
  end.

(** [String(v)].  [None] stands for the [TypeError] that
    [OrdinaryToPrimitive] throws when neither [toString] nor [valueOf]
    produces a primitive: a JSON object with an own [toString] property
    shadows the inherited method by a value that cannot be called, and the
    inherited [valueOf] hands back the object itself.  Arrays go through
    [Array.prototype.join], which renders [null] and [undefined] elements
    as empty.  A built-in function prints as V8 and JavaScriptCore print
    it; the language fixes the shape of that text, not its white space. *)
Fixpoint ToString (v : jsval) : option string :=
  match v with
  | JUndefined => Some "undefined"
  | JNull => Some "null"
  | JBool true => Some "true"
  | JBool false => Some "false"
  | JNumber n => Some (pretty (integer n))
  | JStr s => Some s
  | JArr items =>
      join "," <$>
        (fix elements (l : list jsval) : option (list string) :=
           match l with
           | [] => Some []
           | x :: l' =>
               s ← (if nullish x then Some "" else ToString x);
               ss ← elements l';
               Some (s :: ss)
           end) items
  | JObj props =>
      match own props "toString" with
      | Some _ => None
      | None => Some "[object Object]"
      end
  | JNative name => Some ("function " +:+ name +:+ "() { [native code] }")
  end.

(** Whether [String(v)] throws: [v] is an object with an own [toString]
    property, or an array that holds such a value at any depth. *)
Fixpoint throws (v : jsval) : bool :=
  match v with
  | JArr items =>
      (fix any (l : list jsval) : bool :=
         match l with
         | [] => false
         | x :: l' => throws x || any l'
         end) items
  | JObj props => bool_decide (is_Some (own props "toString"))
  | _ => false
  end.

(** The values whose cell is the empty string: [null] and [undefined],
    which [??] replaces, the empty string itself, and an array that is
    empty or holds one such value and nothing else. *)
Fixpoint blank (v : jsval) : bool :=
  match v with
  | JUndefined | JNull => true
  | JStr s => bool_decide (s = "")
  | JArr [] => true
  | JArr [x] => blank x
  | _ => false
  end.

(** The JSON scalars: what a cell of a tabular result holds. *)
Definition scalar (v : jsval) : bool :=
  match v with
  | JNull | JBool _ | JNumber _ | JStr _ => true
  | _ => false
  end.

End JS.

(* ===================================================================== *)
(** ** The Fetch API, as far as [handleSubmit] consumes it *)
(* ===================================================================== *)

Module Fetch.

(** A thrown value, read only through [err.message]; [None] is a value
    whose [message] is [null] or [undefined]. *)
Record thrown : Type := Thrown { message : option string }.

(** [new Error(msg)] *)
Definition Error (msg : string) : thrown := Thrown (Some msg).

(** A settled promise. *)
Inductive promise (T : Type) : Type :=
  | Fulfilled (value : T)
  | Rejected (reason : thrown).
Global Arguments Fulfilled {T} value.
Global Arguments Rejected {T} reason.

(** A [Response]: its status line, and what [res.text()] and [res.json()]
    settle to.  [handleSubmit] reads the body once, through one of the two,
    so they are kept as independent fields; [D] is the type the caller
    gives to the parsed payload. *)
Record Response (D : Type) : Type := mkResponse {
  status : nat;
  text : promise string;
  json : promise D
}.
Global Arguments mkResponse {D} status text json.
Global Arguments status {D} r.
Global Arguments text {D} r.
Global Arguments json {D} r.

(** [res.ok]: the status is in the range 200-299. *)
Definition ok {D} (res : Response D) : bool :=
  bool_decide (200 ≤ status res ≤ 299)%nat.

(** The JSON document that [handleSubmit] posts to [/api/nl-query]. *)
Record Body : Type := mkBody {
  db_path : string;
  question : string;
  dialect : string;
  max_tokens : nat
}.

End Fetch.

(* ===================================================================== *)
(** ** The [App] component *)
(* ===================================================================== *)

Module App.
Import JS Fetch.

(** An optional nullable string field, [f?: string | null]. *)
Inductive optional_string : Type :=
  | Absent
  | Null
  | Str (s : string).

(** [interface ApiResponse] *)
Record ApiResponse : Type := mkApiResponse {
  sql : string;
  rows : list object;
  columns : list string;
  raw_answer : optional_string;
  summary : optional_string
}.

(** *** State: the five [useState] cells

    [handleSubmit] stores the parsed payload without looking inside it, so
    the state is kept generic in the payload type [D]; the render function
    reads it at [D := ApiResponse], the type the source annotates. *)
Section Controller.
Context {D : Type}.

Record State : Type := mkState {
  dbPath : string;
  question : string;
  loading : bool;
  error : option string;
  response : option D
}.

Definition initial : State :=
  {| dbPath := "C\\Users\\GenAIKOCVISUSR53\\Documents\\hackathon\\sample.db";
     question := "Show all customers with their total order amount, sorted by total amount descending";
     loading := false;
     error := None;
     response := None |}.

Definition setDbPath (v : string) (st : State) : State :=
  mkState v (question st) (loading st) (error st) (response st).
Definition setQuestion (v : string) (st : State) : State :=
  mkState (dbPath st) v (loading st) (error st) (response st).
Definition setLoading (v : bool) (st : State) : State :=
  mkState (dbPath st) (question st) v (error st) (response st).
Definition setError (v : option string) (st : State) : State :=
  mkState (dbPath st) (question st) (loading st) v (response st).
Definition setResponse (v : option D) (st : State) : State :=
  mkState (dbPath st) (question st) (loading st) (error st) v.

(** *** [handleSubmit]

    The handler runs in two turns of the event loop.  [handleSubmit_begin]
    is everything up to the first [await]: the three setters and the call of
    [fetch], whose request body is returned next to the new state.
    ([e.preventDefault()] only stops the browser from navigating.)
    [handleSubmit_resume] is the rest, entered when the network call has
    settled.  Between [await fetch(...)] and the [await] of the body no
    state is written, so the two suspensions are resumed in one step, on the
    settled [fetch] promise together with the settled body promise that the
    [Response] carries. *)

Definition request_body (st : State) : Body :=
  {| db_path := dbPath st;
     Fetch.question := question st;
     dialect := "sqlite";
     max_tokens := 512 |}.

Definition handleSubmit_begin (st : State) : State * Body :=
  (setResponse None (setError None (setLoading true st)), request_body st).

(** The [try] block: the payload it hands to [setResponse], or the value it
    throws. *)
Definition try_block (reply : promise (Response D)) : thrown + D :=
  match reply with
  | Rejected err => inl err
  | Fulfilled res =>
      if negb (ok res) then
        match text res with
        | Rejected err => inl err
        | Fulfilled text =>
            inl (Error (or_else text
                          ("Request failed with status " +:+ pretty (status res))))
        end
      else
        match json res with
        | Rejected err => inl err
        | Fulfilled data => inr data
        end
  end.

(** [catch (err) { setError(err.message ?? 'Unknown error') }] *)
Definition catch_block (err : thrown) (st : State) : State :=
  setError (Some (default "Unknown error" (message err))) st.

Definition handleSubmit_resume (reply : promise (Response D)) (st : State) : State :=
  let st' :=
    match try_block reply with
    | inr data => setResponse (Some data) st
    | inl err => catch_block err st
    end in
  setLoading false st'.

(** What one invocation hands to [setResponse], if anything. *)
Definition payload_of (reply : promise (Response D)) : option D :=
  match try_block reply with
  | inr data => Some data
  | inl _ => None
  end.

(** What one invocation hands to [setError], if anything. *)
Definition failure_of (reply : promise (Response D)) : option string :=
  match try_block reply with
  | inr _ => None
  | inl err => Some (default "Unknown error" (message err))
  end.

End Controller.
Global Arguments State D : clear implicits.

(** *** The render function

    The element tree the component returns: host elements with their
    props ([key] included) and children.  Event handlers are not part of
    the tree; the [Runtime] module below wires [onSubmit] and [onChange] to
    [handleSubmit] and the setters. *)

Inductive node : Type :=
  | Text (s : string)
  | Elem (tag : string) (attrs : list (string * string)) (children : list node)
  | ReactMarkdown (children : string).

Definition className (c : string) : string * string := ("className", c).

(** [{error && <div className="error-banner">{error}</div>}] *)
Definition error_banner (error : option string) : list node :=
  match error with
  | Some msg =>
      if decide (msg = "") then []
      else [Elem "div" [className "error-banner"] [Text msg]]
  | None => []
  end.

(** [<th key={col}>{col}</th>] *)
Definition th (col : string) : node :=
  Elem "th" [("key", col)] [Text col].

(** [String((row as any)[col] ?? '')], the text of one cell. *)
Definition cell (row : object) (col : string) : option string :=
  ToString (nullish_coalesce (Get row col) (JStr "")).

(** The texts of all cells, row by row, each row in the order of
    [columns]. *)
Definition grid (columns : list string) (rows : list object)
    : option (list (list string)) :=
  mapM (λ row, mapM (cell row) columns) rows.

(** [<td key={col}>{String((row as any)[col] ?? '')}</td>] *)
Definition td (row : object) (col : string) : option node :=
  s ← cell row col;
  Some (Elem "td" [("key", col)] [Text s]).

(** [<tr key={idx}>{response.columns.map((col) => ...)}</tr>] *)
Definition tr (columns : list string) (idx : nat) (row : object) : option node :=
  tds ← mapM (td row) columns;
  Some (Elem "tr" [("key", pretty idx)] tds).

(** [<table className="results-table">]: [None] when the conversion of
    some cell throws. *)
Definition results_table (columns : list string) (rows : list object) : option node :=
  trs ← mapM id (imap (tr columns) rows);
  Some (Elem "table" [className "results-table"]
          [ Elem "thead" [] [Elem "tr" [] (th <$> columns)];
            Elem "tbody" [] trs ]).

Definition no_rows : node :=
  Elem "p" [className "placeholder"] [Text "No rows returned."].

(** [response.rows.length === 0 ? <p ...> : <table ...>] *)
Definition rows_view (columns : list string) (rows : list object) : option node :=
  if decide (length rows = 0) then Some no_rows
  else results_table columns rows.

(** [<div className="table-wrapper">] with its label and the rows. *)
Definition table_wrapper (r : ApiResponse) : option node :=
  view ← rows_view (columns r) (rows r);
  Some (Elem "div" [className "table-wrapper"]
          [ Elem "div" [className "section-label"]
              [Text "Rows ("; Text (pretty (length (rows r))); Text ")"];
            view ]).

Definition sql_block (r : ApiResponse) : node :=
  Elem "div" [className "sql-block"]
    [ Elem "div" [className "section-label"] [Text "Generated SQL"];
      Elem "pre" [] [Elem "code" [] [Text (sql r)]] ].

(** [{response.summary && (...)}] *)
Definition summary_block (summary : optional_string) : list node :=
  match summary with
  | Str s =>
      if decide (s = "") then []
      else [Elem "div" [("style", "marginTop: 16")]
              [ Elem "div" [className "section-label"] [Text "Markdown table"];
                Elem "div" [className "table-wrapper"] [ReactMarkdown s] ]]
  | Absent | Null => []
  end.

(** [{response && (<>...</>)}] *)
Definition response_view (response : option ApiResponse) : option (list node) :=
  match response with
  | Some r =>
      table ← table_wrapper r;
      Some ([sql_block r; table] ++ summary_block (summary r))%list
  | None => Some []
  end.

(** [{!response && !error && !loading && (...)}] *)
Definition idle_placeholder (st : State ApiResponse) : list node :=
  if negb (bool_decide (is_Some (response st)))
     && negb (truthy_string (error st))
     && negb (loading st)
  then [Elem "p" [className "placeholder"]
          [Text "Run a query to see generated SQL and data here."]]
  else [].

Definition submit_button (st : State ApiResponse) : node :=
  Elem "button"
    ([className "primary-btn"; ("type", "submit")]
       ++ (if loading st then [("disabled", "")] else []))%list
    [Text (if loading st then "Thinking with SQL…" else "Run query")].

Definition input_card (st : State ApiResponse) : node :=
  Elem "section" [className "card input-card"]
    ([ Elem "h2" [className "card-title"] [Text "Ask your database"];
       Elem "form" [className "form"]
         [ Elem "label" [className "field"]
             [ Elem "span" [className "field-label"] [Text "SQLite DB path"];
               Elem "input" [("type", "text"); ("value", dbPath st);
                             className "input";
                             ("placeholder", "C:\\path\\to\\your.db")] [] ];
           Elem "label" [className "field"]
             [ Elem "span" [className "field-label"] [Text "Your question"];
               Elem "textarea" [("value", question st); className "textarea";
                                ("rows", "3");
                                ("placeholder", "e.g. Show total sales per city for 2024")] [] ];
           submit_button st ] ]
     ++ error_banner (error st))%list.

Definition results_card (st : State ApiResponse) : option node :=
  shown ← response_view (response st);
  Some (Elem "section" [className "card results-card"]
          (Elem "h2" [className "card-title"] [Text "Results"]
             :: idle_placeholder st ++ shown)%list).

(** The component's return value; [None] when rendering throws. *)
Definition App (st : State ApiResponse) : option node :=
  results ← results_card st;
  Some (Elem "div" [className "app-root"]
          [ Elem "div" [className "gradient-bg"] [];
            Elem "header" [className "app-header"]
              [ Elem "div" [className "logo-circle"] [Text "NL"];
                Elem "div" []
                  [ Elem "h1" [className "title"] [Text "Lovable NL → SQL Playground"];
                    Elem "p" [className "subtitle"]
                      [Text "Ask questions in natural language. See the SQL and live results from your SQLite database."] ] ];
            Elem "main" [className "app-main"] [input_card st; results];
            Elem "footer" [className "app-footer"]
              [Elem "span" [] [Text "Powered by SQLite + FastAPI + React"]] ]).

(** *** Reading a rendered table back *)

Definition children_of (n : node) : list node :=
  match n with
  | Elem _ _ children => children
  | _ => []
  end.

Definition tag_of (n : node) : string :=
  match n with
  | Elem tag _ _ => tag
  | _ => ""
  end.

Definition text_of (n : node) : string :=
  match n with
  | Text s => s
  | _ => ""
  end.

(** The text of the cells of a row element, in document order. *)
Definition cells_of (row : node) : list string :=
  (λ c, text_of (default (Text "") (head (children_of c)))) <$> children_of row.

(** The body of a [<table>] as a grid of strings: the [<tr>] children of
    its second child, [<tbody>]. *)
Definition grid_of (table : node) : list (list string) :=
  match children_of table with
  | [_; tbody] => cells_of <$> children_of tbody
  | _ => []
  end.

(** The header of a [<table>]: the texts of the [<th>] children of the
    single row of its first child, [<thead>]. *)
Definition header_of (table : node) : list string :=
  match children_of table with
  | [thead; _] =>
      match children_of thead with
      | [row] => cells_of row
      | _ => []
      end
  | _ => []
  end.

(** The [key] prop of an element, if it has one. *)
Definition key_of (n : node) : option string :=
  match n with
  | Elem _ attrs _ => snd <$> head (filter (λ a, a.1 = "key") attrs)
  | _ => None
  end.

(** Whether an element with the given tag occurs in the tree. *)
Fixpoint occurs (tag : string) (n : node) : bool :=
  match n with
  | Elem t _ children =>
      bool_decide (t = tag)
      || (fix any (l : list node) : bool :=
            match l with
            | [] => false
            | c :: l' => occurs tag c || any l'
            end) children
  | _ => false
  end.

End App.

(* ===================================================================== *)
(** ** The event loop around the component *)
(* ===================================================================== *)

Module Runtime.
Import Fetch App.

Section Loop.
Context {D : Type}.

(** The component state together with the network: every request body
    handed to [fetch] so far, in order, and the calls that have not settled
    yet.  A call is named by its position in [calls]; the name exists in
    the model only, the handler keeps no such number. *)
Record System : Type := mkSystem {
  ui : State D;
  calls : list Body;
  inflight : gmap nat Body
}.

Inductive event : Type :=
  | ChangeDbPath (v : string)
  | ChangeQuestion (v : string)
  | Submit
  | Settle (id : nat) (reply : promise (Response D)).

(** One event.  [Submit] is the form's [onSubmit], i.e. a call of
    [handleSubmit]; [Settle] resumes the invocation that issued call [id]
    and is possible only while that call is outstanding. *)
Definition step (e : event) (s : System) : option System :=
  match e with
  | ChangeDbPath v => Some (mkSystem (setDbPath v (ui s)) (calls s) (inflight s))
  | ChangeQuestion v => Some (mkSystem (setQuestion v (ui s)) (calls s) (inflight s))
  | Submit =>
      let '(st, body) := handleSubmit_begin (ui s) in
      Some (mkSystem st (calls s ++ [body])%list
              (<[length (calls s) := body]> (inflight s)))
  | Settle id reply =>
      match inflight s !! id with
      | Some _ =>
          Some (mkSystem (handleSubmit_resume reply (ui s)) (calls s)
                  (delete id (inflight s)))
      | None => None
      end
  end.

Fixpoint run (trace : list event) (s : System) : option System :=
  match trace with
  | [] => Some s
  | e :: trace' => s' ← step e s; run trace' s'
  end.

(** A freshly mounted component. *)
Definition mount (st : State D) : System := mkSystem st [] ∅.

(** The submit button carries [disabled={loading}]: a trace in which every
    submission is made while the button is enabled. *)
Fixpoint through_button (trace : list event) (s : System) : Prop :=
  match trace with
  | [] => True
  | e :: trace' =>
      (e = Submit → loading (ui s) = false)
      ∧ match step e s with
        | Some s' => through_button trace' s'
        | None => True
        end
  end.

Definition is_Submit (e : event) : bool :=
  match e with
  | Submit => true
  | _ => false
  end.

Definition is_Change (e : event) : bool :=
  match e with
  | ChangeDbPath _ | ChangeQuestion _ => true
  | _ => false
  end.

(** How many times the trace calls [handleSubmit]. *)
Definition submissions (trace : list event) : nat :=
  length (filter (λ e, is_Submit e = true) trace).

(** Every call in flight is the call logged under its name. *)
Definition inflight_logged (s : System) : Prop :=
  ∀ id body, inflight s !! id = Some body → calls s !! id = Some body.

(** The two request parameters the handler hard-codes. *)
Definition fixed_parameters (body : Body) : Prop :=
  dialect body = "sqlite" ∧ max_tokens body = 512.

(** Names of calls not yet made are not in flight. *)
Definition fresh_above (s : System) : Prop :=
  ∀ id, length (calls s) ≤ id → inflight s !! id = None.

(** While the component shows "pending", a network call is outstanding. *)
Definition pending_has_call (s : System) : Prop :=
  loading (ui s) = true → inflight s ≠ ∅.

(** With the button as the only way to submit, replies cannot overlap. *)
Definition one_at_a_time (s : System) : Prop :=
  (loading (ui s) = false → inflight s = ∅)
  ∧ ∀ id id', is_Some (inflight s !! id) → is_Some (inflight s !! id') → id = id'.

End Loop.
Global Arguments System D : clear implicits.
Global Arguments event D : clear implicits.

End Runtime.

(* ===================================================================== *)
(** ** Vocabulary of the specification *)
(* ===================================================================== *)

Module Spec.
Import Fetch App.

(** The white space [String.prototype.trim] strips, within ASCII: TAB, LF,
    VT, FF, CR and SPACE. *)
Definition white_space (c : Ascii.ascii) : bool :=
  let n := Ascii.nat_of_ascii c in
  bool_decide (9 ≤ n ≤ 13)%nat || bool_decide (n = 32)%nat.

Fixpoint trim_start (s : string) : string :=
  match s with
  | String c s' => if white_space c then trim_start s' else s
  | EmptyString => EmptyString
  end.

Definition trim_end (s : string) : string :=
  String.rev (trim_start (String.rev s)).

Definition trim (s : string) : string := trim_end (trim_start s).

(** "non-empty after trimming" *)
Definition present (s : string) : bool := negb (String.eqb (trim s) "").



(** The cell of section 4.3: the row's value under the column if it is
    present and not null, converted to a string, and the empty string
    otherwise. *)
Definition spec_cell (row : JS.object) (col : string) : option string :=
  match JS.own row col with
  | Some v => if JS.nullish v then Some "" else JS.ToString v
  | None => Some ""
  end.

(** The state in which only the reply to the latest submission shows: what
    a submission made alone from [st] and answered by [reply] leaves. *)
Definition latest_only {D} (st : State D) (reply : promise (Response D)) : State D :=
  handleSubmit_resume reply (handleSubmit_begin st).1.

End Spec.

(* ===================================================================== *)
(** ** Sample data *)
(* ===================================================================== *)

Module Samples.
Import JS Fetch App.

(** A reply that arrived: status, raw body, and what parsing it gives. *)
Definition replied {D} (status : nat) (raw : string) (parsed : promise D)
    : promise (Response D) :=
  Fulfilled (mkResponse status (Fulfilled raw) parsed).

Definition not_json : thrown := Error "Unexpected token in JSON".

(** What [fetch] rejects with when no response is obtained. *)
Definition unreachable {D} : promise (Response D) :=
  Rejected (Error "Failed to fetch").

Definition first_answer : ApiResponse :=
  mkApiResponse "SELECT 1" [[("n", JNum 1)]] ["n"] Absent Absent.

Definition second_answer : ApiResponse :=
  mkApiResponse "SELECT 2" [[("n", JNum 2)]] ["n"] Absent Null.

(** A success payload as it comes off the wire, without [columns]. *)
Definition without_columns : jsval :=
  JObj [("sql", JStr "SELECT 1"); ("rows", JArr [JObj [("n", JNum 1)]])].

Definition with_columns : jsval :=
  JObj [("sql", JStr "SELECT 0"); ("rows", JArr []); ("columns", JArr [])].

End Samples.

(* ===================================================================== *)
(** ** The request lifecycle *)
(* ===================================================================== *)

Import JS Fetch App Runtime Spec Samples.

Section Lifecycle.
Context {D : Type}.
Implicit Types (st : State D) (reply : promise (Response D)) (s : System D).

(** An invocation ends in exactly one of the two. *)
Lemma payload_xor_failure reply :
  (is_Some (payload_of reply) ∧ failure_of reply = None)
  ∨ (payload_of reply = None ∧ is_Some (failure_of reply)).
Proof.
  unfold payload_of, failure_of. destruct (try_block reply); eauto.
Qed.

(** The fields of the state after the second turn of [handleSubmit], in
    terms of the state it resumes in. *)
Lemma resume_fields reply st :
  let st' := handleSubmit_resume reply st in
  loading st' = false
  ∧ response st' = payload_of reply ∪ response st
  ∧ error st' = failure_of reply ∪ error st
  ∧ dbPath st' = dbPath st
  ∧ question st' = question st.
Proof.
  unfold handleSubmit_resume, payload_of, failure_of, catch_block.
  destruct (try_block reply); simpl; repeat split;
    by destruct (response st), (error st).
Qed.

Lemma begin_fields st :
  let st' := (handleSubmit_begin st).1 in
  loading st' = true ∧ response st' = None ∧ error st' = None
  ∧ dbPath st' = dbPath st ∧ question st' = question st.
Proof. done. Qed.

(** [handleSubmit] starts over from whatever was displayed. *)
Lemma begin_idem st :
  (handleSubmit_begin (handleSubmit_begin st).1).1 = (handleSubmit_begin st).1.
Proof. done. Qed.

Lemma step_Submit s :
  step Submit s
  = Some (mkSystem (handleSubmit_begin (ui s)).1
            (calls s ++ [request_body (ui s)])
            (<[length (calls s) := request_body (ui s)]> (inflight s))).
Proof. done. Qed.

Lemma step_Settle s id reply :
  is_Some (inflight s !! id) →
  step (Settle id reply) s
  = Some (mkSystem (handleSubmit_resume reply (ui s)) (calls s)
            (delete id (inflight s))).
Proof. intros [body Hid]. simpl. by rewrite Hid. Qed.

(** *** Invariants of the event loop *)

Lemma step_fresh_above e s s' :
  step e s = Some s' → fresh_above s → fresh_above s'.
Proof.
  unfold fresh_above. destruct e as [v|v| |id reply]; simpl; intros Hstep Hs.
  - by simplify_eq.
  - by simplify_eq.
  - simplify_eq. simpl. intros id. rewrite length_app. simpl. intros Hid.
    rewrite lookup_insert_ne by lia. apply Hs. lia.
  - destruct (inflight s !! id) eqn:Hid; simplify_eq. simpl. intros id' Hid'.
    rewrite lookup_delete. case_decide; [done|]. by apply Hs.
Qed.

Lemma step_pending_has_call e s s' :
  step e s = Some s' → pending_has_call s → pending_has_call s'.
Proof.
  unfold pending_has_call. destruct e as [v|v| |id reply]; simpl; intros Hstep Hs.
  - by simplify_eq.
  - by simplify_eq.
  - simplify_eq. simpl. intros _. apply insert_non_empty.
  - destruct (inflight s !! id) eqn:Hid; simplify_eq. cbn [ui inflight].
    pose proof (resume_fields reply (ui s)) as [Hl _]. congruence.
Qed.

Lemma run_app trace1 trace2 s :
  run (trace1 ++ trace2) s = run trace1 s ≫= run trace2.
Proof.
  revert s. induction trace1 as [|e trace1 IH]; intros s; simpl; [done|].
  destruct (step e s); simpl; [apply IH|done].
Qed.

Lemma run_invariant (P : System D → Prop) trace s s' :
  (∀ e s1 s2, step e s1 = Some s2 → P s1 → P s2) →
  run trace s = Some s' → P s → P s'.
Proof.
  intros Hstep. revert s. induction trace as [|e trace IH]; intros s; simpl.
  - by intros [= ->].
  - destruct (step e s) as [s1|] eqn:He; simpl; [|done]. eauto.
Qed.

(** Every call that is in flight was made: its name is below the number of
    calls, so no two calls share a name. *)
Lemma run_fresh_above st trace s :
  run trace (mount st) = Some s → fresh_above s.
Proof.
  intros Hrun. apply (run_invariant fresh_above trace (mount st)); [|done|].
  - intros e s1 s2. apply step_fresh_above.
  - intros id _. apply lookup_empty.
Qed.

(** Submitting only while the button is enabled keeps at most one call
    outstanding, so replies cannot overlap; this is the only thing that
    keeps a stale reply off the screen. *)
Lemma step_one_at_a_time e s s' :
  (e = Submit → loading (ui s) = false) →
  step e s = Some s' → one_at_a_time s → one_at_a_time s'.
Proof.
  unfold one_at_a_time.
  destruct e as [v|v| |id reply]; simpl; intros Hbutton Hstep [Hidle Hone].
  - by simplify_eq.
  - by simplify_eq.
  - simplify_eq. cbn [ui inflight]. rewrite (Hidle (Hbutton eq_refl)).
    split; [done|]. intros id id'.
    rewrite !lookup_insert, !lookup_empty.
    repeat case_decide; simplify_eq; try done; by intros [? ?] || by intros _ [? ?].
  - destruct (inflight s !! id) as [body|] eqn:Hid; simplify_eq. cbn [ui inflight].
    assert (delete id (inflight s) = ∅) as ->.
    { apply map_eq. intros id'. rewrite lookup_delete, lookup_empty.
      case_decide as Hne; [done|]. destruct (inflight s !! id') eqn:Hid'; [|done].
      exfalso. by eapply Hne, Hone. }
    split; [done|]. intros id1 id2. rewrite lookup_empty. by intros [? ?].
Qed.

Lemma through_button_one_at_a_time trace s s' :
  through_button trace s → run trace s = Some s' →
  one_at_a_time s → one_at_a_time s'.
Proof.
  revert s. induction trace as [|e trace IH]; intros s; simpl.
  - by intros _ [= ->].
  - intros [Hbutton Hrest]. destruct (step e s) as [s1|] eqn:He; simpl; [|done].
    intros Hrun Hs. eapply IH; [done..|]. by eapply step_one_at_a_time.
Qed.

End Lifecycle.

Section Submission.
Context {D : Type}.
Implicit Types (st : State D) (reply : promise (Response D)) (s : System D).



(** C3 (amended).  [handleSubmit] validates nothing: at submission the
    displayed response and error are cleared, and a 200-299 reply whose
    body parses to [data] ends with [data] stored as the response as it is,
    no error set and "pending" over, whichever fields [data] has or
    lacks. *)
Theorem success_payload_stored_unchecked st (res : Response D) data :
  ok res = true →
  json res = Fulfilled data →
  let begun := (handleSubmit_begin st).1 in
  let st' := handleSubmit_resume (Fulfilled res) begun in
  response begun = None ∧ error begun = None
  ∧ response st' = Some data ∧ error st' = None ∧ loading st' = false.
Proof.
  intros Hok Hjson begun st'. unfold st', handleSubmit_resume, try_block.
  rewrite Hok, Hjson. done.
Qed.

(** C2 (amended).  [handleSubmit] checks neither field: every submission,
    blank fields included, sets no error, shows "pending" and issues exactly
    one network call, whose body carries the two fields as typed together
    with the dialect ["sqlite"] and a token limit of 512. *)
Theorem submit_always_issues_one_call s :
  ∃ s', step Submit s = Some s'
    ∧ calls s' = calls s ++ [mkBody (dbPath (ui s)) (question (ui s)) "sqlite" 512]
    ∧ inflight s'
      = <[length (calls s) := mkBody (dbPath (ui s)) (question (ui s)) "sqlite" 512]>
          (inflight s)
    ∧ error (ui s') = None
    ∧ loading (ui s') = true.
Proof. eexists. split; [apply step_Submit|]. done. Qed.

(** C1 (amended).  No reply is discarded.  When two submissions are made
    before either settles, each reply is applied as it arrives: the final
    response is the payload of the last reply that succeeded, the final
    error is the message of the last reply that failed, and "pending" is
    over, for both orders of arrival. *)
Theorem overlapping_replies_applied_on_arrival st r1 r2 :
  let begun := (handleSubmit_begin st).1 in
  (∃ s, run [Submit; Submit; Settle 0 r1; Settle 1 r2] (mount st) = Some s
     ∧ inflight s = ∅
     ∧ ui s = handleSubmit_resume r2 (handleSubmit_resume r1 begun)
     ∧ response (ui s) = payload_of r2 ∪ payload_of r1
     ∧ error (ui s) = failure_of r2 ∪ failure_of r1
     ∧ loading (ui s) = false)
  ∧ (∃ s, run [Submit; Submit; Settle 1 r2; Settle 0 r1] (mount st) = Some s
     ∧ inflight s = ∅
     ∧ ui s = handleSubmit_resume r1 (handleSubmit_resume r2 begun)
     ∧ response (ui s) = payload_of r1 ∪ payload_of r2
     ∧ error (ui s) = failure_of r1 ∪ failure_of r2
     ∧ loading (ui s) = false).
Proof.
  intros begun.
  assert (∀ ra rb,
    let st' := handleSubmit_resume rb (handleSubmit_resume ra begun) in
    response st' = payload_of rb ∪ payload_of ra
    ∧ error st' = failure_of rb ∪ failure_of ra
    ∧ loading st' = false) as Hfields.
  { intros ra rb st'.
    destruct (resume_fields rb (handleSubmit_resume ra begun)) as (Hl & Hr & He & _).
    destruct (resume_fields ra begun) as (_ & Hr' & He' & _).
    fold st' in Hl, Hr, He. rewrite Hr' in Hr. rewrite He' in He.
    rewrite Hr, He. split; [|split; [|done]].
    - by destruct (payload_of rb), (payload_of ra).
    - by destruct (failure_of rb), (failure_of ra). }
  assert (∀ (b b' : Body), delete 1 (delete 0 (<[1:=b']> (<[0:=b]> ∅)))
                           = (∅ : gmap nat Body)) as Hdone.
  { intros b b'. apply map_eq. intros i.
    rewrite !lookup_delete, !lookup_insert, lookup_empty.
    by repeat case_decide. }
  split.
  - eexists. split.
    { unfold run. rewrite step_Submit. cbn [mbind option_bind].
      rewrite step_Submit. cbn [mbind option_bind mount calls ui inflight length app].
      rewrite step_Settle by (cbn [inflight]; rewrite lookup_insert_ne, lookup_insert_eq; eauto).
      cbn [mbind option_bind]. rewrite step_Settle
        by (cbn [inflight]; rewrite lookup_delete_ne, lookup_insert_eq; eauto).
      cbn [mbind option_bind calls ui inflight]. reflexivity. }
    cbn [inflight ui]. split; [apply Hdone|].
    split; [done|]. apply Hfields.
  - eexists. split.
    { unfold run. rewrite step_Submit. cbn [mbind option_bind].
      rewrite step_Submit. cbn [mbind option_bind mount calls ui inflight length app].
      rewrite step_Settle by (cbn [inflight]; rewrite lookup_insert_eq; eauto).
      cbn [mbind option_bind]. rewrite step_Settle
        by (cbn [inflight]; rewrite lookup_delete_ne, lookup_insert_ne, lookup_insert_eq; eauto).
      cbn [mbind option_bind calls ui inflight]. reflexivity. }
    cbn [inflight ui]. split; [rewrite delete_delete; apply Hdone|].
    split; [done|]. apply Hfields.
Qed.

End Submission.

Section Settling.
Implicit Types (st : State ApiResponse) (reply : promise (Response ApiResponse))
  (s : System ApiResponse).




End Settling.




Lemma success_payload_stored_unchecked_witness :
  let res : Response jsval := mkResponse 200 (Fulfilled "{}") (Fulfilled without_columns) in
  let begun := (handleSubmit_begin (setResponse (Some with_columns) initial)).1 in
  let st' := handleSubmit_resume (Fulfilled res) begun in
  ok res = true
  ∧ json res = Fulfilled without_columns
  ∧ response begun = None ∧ error begun = None
  ∧ response st' = Some without_columns ∧ error st' = None ∧ loading st' = false.
Proof.
  intros res begun st'. split; [reflexivity|]. split; [reflexivity|].
  exact (success_payload_stored_unchecked (setResponse (Some with_columns) initial)
           res without_columns eq_refl eq_refl).
Defined.

(** C1, refuted as stated.  Two submissions, both answered with success,
    the reply to the first arriving last: the first answer is what stays on
    screen.  And when the first call fails while the second succeeds, the
    stale error stays on screen next to the second answer. *)
Lemma stale_reply_is_displayed :
  let r1 := replied 200 "{}" (Fulfilled first_answer) in
  let r2 := replied 200 "{}" (Fulfilled second_answer) in
  (∃ s, run [Submit; Submit; Settle 1 r2; Settle 0 r1] (mount initial) = Some s
      ∧ response (ui s) = Some first_answer
      ∧ ui s ≠ latest_only initial r2)
  ∧ (∃ s, run [Submit; Submit; Settle 0 unreachable; Settle 1 r2] (mount initial) = Some s
      ∧ error (ui s) = Some "Failed to fetch"
      ∧ response (ui s) = Some second_answer
      ∧ ui s ≠ latest_only initial r2).
Proof.
  intros r1 r2. split.
  - eexists. split; [reflexivity|]. split; [reflexivity|].
    intros H. apply (f_equal response) in H. discriminate H.
  - eexists. split; [reflexivity|]. split; [reflexivity|]. split; [reflexivity|].
    intros H. apply (f_equal error) in H. discriminate H.
Qed.

(** C2, refuted as stated.  With a locator that is empty and a question
    that is blank, [handleSubmit] still issues the network call and sets no
    error. *)
Lemma blank_fields_are_submitted :
  let st : State ApiResponse := setQuestion "   " (setDbPath "" initial) in
  present (dbPath st) = false
  ∧ present (question st) = false
  ∧ ∃ s, step Submit (mount st) = Some s
      ∧ calls s = [mkBody "" "   " "sqlite" 512]
      ∧ inflight s !! 0 = Some (mkBody "" "   " "sqlite" 512)
      ∧ error (ui s) = None.
Proof.
  intros st. split; [reflexivity|]. split; [reflexivity|].
  eexists. split; [reflexivity|]. split; [reflexivity|]. split; reflexivity.
Qed.

(** C3, refuted as stated.  A 200 reply whose payload has no [columns]
    sets no error, and the payload replaces the response that was
    displayed before. *)
Lemma payload_without_columns_is_stored :
  let shown : State jsval := setResponse (Some with_columns) initial in
  let reply := replied 200 "{}" (Fulfilled without_columns) in
  match without_columns with
  | JObj props => own props "columns" = None
  | _ => False
  end
  ∧ ∃ s, run [Submit; Settle 0 reply] (mount shown) = Some s
      ∧ error (ui s) = None
      ∧ response (ui s) = Some without_columns
      ∧ response (ui s) ≠ response shown.
Proof.
  intros shown reply. split; [reflexivity|].
  eexists. split; [reflexivity|]. split; [reflexivity|]. split; [reflexivity|].
  discriminate.
Qed.

(* ===================================================================== *)
(** ** The result renderer *)
(* ===================================================================== *)

Section Cells.
Implicit Types (row : object) (col : string) (columns : list string)
  (rows : list object) (v : jsval).

Lemma cell_unfold row col :
  cell row col
  = if nullish (Get row col) then Some "" else ToString (Get row col).
Proof. unfold cell, nullish_coalesce. by destruct (nullish (Get row col)). Qed.

Lemma Get_own row col v : own row col = Some v → Get row col = v.
Proof. unfold Get. by intros ->. Qed.

Lemma Get_missing row col :
  own row col = None → Get row col = default JUndefined (own Object_prototype col).
Proof. unfold Get. by intros ->. Qed.

(** Off the names on [Object.prototype], the code's cell is the cell of the
    specification; an own property always wins. *)
Lemma cell_spec_cell row col :
  is_Some (own row col) ∨ own Object_prototype col = None →
  cell row col = spec_cell row col.
Proof.
  rewrite cell_unfold. unfold spec_cell, Get.
  intros [[v ->]|Hplain]; [done|].
  destruct (own row col); [done|]. by rewrite Hplain.
Qed.

(** The decimal rendering of a number is never empty. *)
Lemma pretty_N_go_nonempty (x : N) (acc : string) :
  acc ≠ "" → pretty_N_go x acc ≠ "".
Proof.
  revert acc. induction (N.lt_wf_0 x) as [x _ IH]; intros acc Hacc.
  destruct (decide (x = 0%N)) as [->|Hx].
  - by rewrite pretty_N_go_0.
  - rewrite pretty_N_go_step by lia. apply IH; [|done].
    apply N.div_lt; lia.
Qed.

Lemma pretty_positive_nonempty (p : positive) : pretty p ≠ "".
Proof.
  unfold pretty, pretty_positive, pretty, pretty_N.
  rewrite decide_False by done.
  rewrite pretty_N_go_step by lia. by apply pretty_N_go_nonempty.
Qed.

Lemma pretty_Z_nonempty (z : Z) : pretty z ≠ "".
Proof.
  destruct z as [|p|p]; unfold pretty, pretty_Z; [done| |done].
  apply pretty_positive_nonempty.
Qed.

(** A scalar converts without throwing, and to the empty string only when
    it is the empty string. *)
Lemma ToString_scalar v :
  scalar v = true → ∃ s, ToString v = Some s ∧ (s = "" → v = JStr "").
Proof.
  destruct v as [| |[]|z|s| | |]; try done; intros _; simpl; eexists;
    (split; [reflexivity|]); try done.
  - intros Hz. by destruct (pretty_Z_nonempty (integer z)).
  - by intros ->.
Qed.

Lemma ToString_JArr (items : list jsval) :
  ToString (JArr items)
  = join "," <$> mapM (λ x, if nullish x then Some "" else ToString x) items.
Proof.
  reflexivity.
Qed.

Lemma mapM_cons_None {A B} (f : A → option B) (x : A) (l : list A) :
  mapM f (x :: l) = None ↔ f x = None ∨ mapM f l = None.
Proof. by rewrite !mapM_None, Exists_cons. Qed.

(** The values whose conversion, after [??], is the empty string. *)
Lemma blank_spec v :
  (if nullish v then Some "" else ToString v) = Some "" ↔ blank v = true.
Proof.
  revert v. fix IH 1. intros v. destruct v as [| |b|n|s|items|props|name].
  - split; intros _; reflexivity.
  - split; intros _; reflexivity.
  - destruct b; split; discriminate.
  - simpl. split; [|discriminate]. intros [= Hn].
    destruct (pretty_Z_nonempty (integer n) Hn).
  - simpl. rewrite bool_decide_eq_true.
    split; [intros [= ->]; reflexivity|intros ->; reflexivity].
  - cbn [nullish]. rewrite ToString_JArr. destruct items as [|x [|y items]].
    + split; intros _; reflexivity.
    + cbn [blank mapM]. rewrite <-(IH x).
      destruct (if nullish x then Some "" else ToString x) as [t|]; simpl.
      * reflexivity.
      * split; discriminate.
    + cbn [blank]. split; [|discriminate].
      destruct (mapM _ (x :: y :: items)) as [parts|] eqn:Hparts; [|discriminate].
      apply length_mapM in Hparts.
      destruct parts as [|p [|q parts]]; try discriminate Hparts.
      simpl. destruct p; discriminate.
  - simpl. destruct (own props "toString"); split; discriminate.
  - simpl. split; discriminate.
Qed.

(** Property lookup does not depend on the order in which a row lists its
    keys. *)
Lemma own_Permutation row row' col :
  NoDup row.*1 → row ≡ₚ row' → own row' col = own row col.
Proof.
  intros Hnodup Hperm. induction Hperm as [|[k v] l l' Hp IH|[k1 v1] [k2 v2] l|l1 l2 l3 H12 IH12 H23 IH23].
  - done.
  - simpl. apply NoDup_cons in Hnodup as [_ ?]. rewrite IH by done. done.
  - simpl in *. apply NoDup_cons in Hnodup as [Hk2 _].
    repeat case_decide; simplify_eq; try done.
    exfalso. apply Hk2. left.
  - rewrite IH23, IH12; [done..|]. by rewrite <-H12.
Qed.

End Cells.

Section Table.
Implicit Types (row : object) (col : string) (columns : list string)
  (rows : list object) (n : node).

(** The [<td>] elements of a row carry the texts of its cells. *)
Lemma mapM_td row columns :
  mapM (td row) columns
  = fmap (M:=list) (λ '(col, s), Elem "td" [("key", col)] [Text s])
    ∘ zip columns <$> mapM (cell row) columns.
Proof.
  induction columns as [|col columns IH]; [done|].
  cbn [mapM]. rewrite IH. unfold td at 1.
  destruct (cell row col) as [s|]; [|done]. simpl.
  by destruct (mapM (cell row) columns).
Qed.

Lemma cells_of_tds columns (texts : list string) attrs :
  length texts = length columns →
  cells_of (Elem "tr" attrs
              ((λ '(col, s), Elem "td" [("key", col)] [Text s]) <$> zip columns texts))
  = texts.
Proof.
  unfold cells_of. cbn [children_of]. revert texts.
  induction columns as [|col columns IH]; intros [|s texts] Hlen; simplify_eq/=; [done|].
  f_equal. by apply IH.
Qed.

Lemma tr_cells columns idx row :
  tr columns idx row
  = (λ texts, Elem "tr" [("key", pretty idx)]
                ((λ '(col, s), Elem "td" [("key", col)] [Text s]) <$> zip columns texts))
    <$> mapM (cell row) columns.
Proof. unfold tr. rewrite mapM_td. by destruct (mapM (cell row) columns). Qed.

Lemma tr_cells_of columns idx row n :
  tr columns idx row = Some n → mapM (cell row) columns = Some (cells_of n).
Proof.
  rewrite tr_cells. destruct (mapM (cell row) columns) as [texts|] eqn:Hm; [|done].
  intros [= <-]. rewrite cells_of_tds; [done|].
  symmetry. by eapply length_mapM.
Qed.

Lemma tr_None columns idx row :
  tr columns idx row = None ↔ mapM (cell row) columns = None.
Proof. rewrite tr_cells. by destruct (mapM (cell row) columns). Qed.

(** The body rows, for any numbering of the keys. *)
Lemma body_rows_grid columns rows (number : nat → nat) :
  fmap (M:=list) cells_of
    <$> mapM id (imap (λ idx, tr columns (number idx)) rows)
  = grid columns rows.
Proof.
  unfold grid. revert number.
  induction rows as [|row rows IH]; intros number; [done|].
  rewrite imap_cons. cbn [mapM].
  specialize (IH (number ∘ S)). unfold compose, id in *.
  destruct (tr columns (number 0) row) as [n|] eqn:Htr.
  - rewrite (tr_cells_of _ _ _ _ Htr). simpl. rewrite <-IH.
    by destruct (mapM _ (imap _ rows)).
  - apply tr_None in Htr. by rewrite Htr.
Qed.

(** The rendered table holds exactly the grid, and rendering throws exactly
    when some cell cannot be converted. *)
Lemma results_table_grid columns rows :
  grid_of <$> results_table columns rows = grid columns rows.
Proof.
  rewrite <-(body_rows_grid columns rows id). unfold results_table, id.
  by destruct (mapM _ (imap _ rows)).
Qed.

Lemma grid_length columns rows g :
  grid columns rows = Some g →
  length g = length rows ∧ Forall (λ texts, length texts = length columns) g.
Proof.
  unfold grid. intros Hg. split.
  - symmetry. by eapply length_mapM.
  - apply mapM_Some in Hg. induction Hg as [|row texts rows g Hrow _ IH]; [done|].
    constructor; [|done]. symmetry. by eapply length_mapM.
Qed.

Lemma grid_lookup columns rows g i j row col :
  grid columns rows = Some g →
  rows !! i = Some row → columns !! j = Some col →
  ∃ texts s, g !! i = Some texts ∧ texts !! j = Some s ∧ cell row col = Some s.
Proof.
  unfold grid. intros Hg Hrow Hcol.
  apply mapM_Some in Hg.
  destruct (Forall2_lookup_l _ _ _ _ _ Hg Hrow) as (texts & Htexts & Hcells).
  apply mapM_Some in Hcells.
  destruct (Forall2_lookup_l _ _ _ _ _ Hcells Hcol) as (s & Hs & Hcell).
  eauto.
Qed.

(** Rows of scalars always render. *)
Lemma grid_scalar columns rows :
  Forall (λ row, Forall (λ kv, scalar kv.2 = true) row) rows →
  Forall (λ col, own Object_prototype col = None) columns →
  is_Some (grid columns rows).
Proof.
  intros Hrows Hcols. unfold grid. apply mapM_is_Some.
  eapply Forall_impl; [exact Hrows|]. intros row Hrow. simpl.
  apply mapM_is_Some. eapply Forall_impl; [exact Hcols|]. intros col Hcol. simpl.
  rewrite cell_spec_cell by auto. unfold spec_cell.
  destruct (own row col) as [v|] eqn:Hv; [|done].
  destruct (nullish v); [done|].
  assert (scalar v = true) as Hs.
  { clear -Hrow Hv. induction row as [|[k w] row IH]; [done|].
    apply Forall_cons in Hrow as [Hw Hrow]. simpl in Hv.
    case_decide; simplify_eq; auto. }
  destruct (ToString_scalar v Hs) as (s & -> & _). done.
Qed.

End Table.

Section Rendering.
Implicit Types (row : object) (col : string) (columns : list string)
  (rows : list object) (r : ApiResponse).

(** For column names that [Object.prototype] does not define, the rendered
    grid is the one section 4.3 describes: one row of texts per row, one
    text per column, in the order of [columns]. *)
Lemma grid_plain_columns columns rows :
  Forall (λ col, own Object_prototype col = None) columns →
  grid columns rows = mapM (λ row, mapM (spec_cell row) columns) rows.
Proof.
  intros Hcols. unfold grid. apply mapM_ext. intros row.
  apply Forall_mapM_ext. eapply Forall_impl; [exact Hcols|].
  intros col Hcol. simpl. apply cell_spec_cell. by right.
Qed.

(** The order in which a row lists its keys does not reach the output. *)
Lemma cell_key_order row row' col :
  NoDup row.*1 → row ≡ₚ row' → cell row' col = cell row col.
Proof.
  intros Hnodup Hperm. unfold cell, Get.
  by rewrite (own_Permutation row row' col).
Qed.

Lemma rows_view_grid columns rows :
  rows ≠ [] → grid_of <$> rows_view columns rows = grid columns rows.
Proof.
  intros Hrows. unfold rows_view.
  rewrite decide_False by (by destruct rows).
  apply results_table_grid.
Qed.

(** The example of section 8. *)
Lemma rows_view_example :
  grid_of <$> rows_view ["a"; "b"]
                [[("a", JNum 1); ("b", JNull)]; [("a", JNum 2)]]
  = Some [["1"; ""]; ["2"; ""]].
Proof. reflexivity. Qed.

(** C4, at the input where the code departs from it.  The column
    ["constructor"] is missing from the row, yet its cell is not empty: the
    lookup finds the function that every object inherits, and [??] lets it
    through. *)
Theorem inherited_column_name_fills_cell :
  let columns := ["a"; "constructor"] in
  let rows : list object := [[("a", JNum 2)]] in
  own [("a", JNum 2)] "constructor" = None
  ∧ grid_of <$> rows_view columns rows
    = Some [["2"; "function Object() { [native code] }"]]
  ∧ mapM (λ row, mapM (spec_cell row) columns) rows = Some [["2"; ""]].
Proof. repeat split. Qed.

(** C5.  A response without rows renders the "No rows returned."
    paragraph under the label, whatever its columns are, and no table
    element. *)
Theorem no_rows_placeholder r :
  rows r = [] →
  rows_view (columns r) (rows r) = Some no_rows
  ∧ table_wrapper r
    = Some (Elem "div" [className "table-wrapper"]
              [ Elem "div" [className "section-label"]
                  [Text "Rows ("; Text "0"; Text ")"];
                Elem "p" [className "placeholder"] [Text "No rows returned."] ])
  ∧ occurs "table" no_rows = false.
Proof.
  intros Hrows. unfold table_wrapper, rows_view. rewrite Hrows. done.
Qed.

Lemma no_rows_placeholder_witness :
  let none := mkApiResponse "SELECT 1 WHERE 0" [] [] Absent Absent in
  let some := mkApiResponse "SELECT a FROM t WHERE 0" [] ["a"] Absent Absent in
  (rows none = [] ∧ rows_view (columns none) (rows none) = Some no_rows)
  ∧ (rows some = [] ∧ rows_view (columns some) (rows some) = Some no_rows).
Proof.
  intros none some. split.
  - split; [reflexivity|]. apply (no_rows_placeholder none). reflexivity.
  - split; [reflexivity|]. apply (no_rows_placeholder some). reflexivity.
Defined.

Lemma body_rows_no_columns rows (number : nat → nat) :
  mapM id (imap (λ idx, tr [] (number idx)) rows)
  = Some (imap (λ idx _, Elem "tr" [("key", pretty (number idx))] []) rows).
Proof.
  revert number. induction rows as [|row rows IH]; intros number; [done|].
  rewrite !imap_cons. cbn [mapM]. specialize (IH (number ∘ S)).
  unfold compose, id in *. by rewrite IH.
Qed.

(** C9 (amended).  Without columns, rows still render: a table whose
    header row is empty and whose body has one empty row element per row.
    No cell is produced and rendering does not throw, whatever the rows
    hold. *)
Theorem empty_columns_table_skeleton rows :
  rows ≠ [] →
  rows_view [] rows
  = Some (Elem "table" [className "results-table"]
            [ Elem "thead" [] [Elem "tr" [] []];
              Elem "tbody" []
                (imap (λ idx _, Elem "tr" [("key", pretty idx)] []) rows) ])
  ∧ grid [] rows = Some (replicate (length rows) []).
Proof.
  intros Hrows. split.
  - unfold rows_view. rewrite decide_False by (by destruct rows).
    unfold results_table.
    assert (mapM id (imap (tr []) rows)
            = Some (imap (λ idx _, Elem "tr" [("key", pretty idx)] []) rows))
      as -> by exact (body_rows_no_columns rows id).
    done.
  - unfold grid. clear Hrows. induction rows as [|row rows IH]; [done|].
    simpl in *. by rewrite IH.
Qed.

Lemma empty_columns_table_skeleton_witness :
  let rows : list object := [[("a", JNum 1)]; [("toString", JNum 2)]] in
  rows ≠ []
  ∧ rows_view [] rows
    = Some (Elem "table" [className "results-table"]
              [ Elem "thead" [] [Elem "tr" [] []];
                Elem "tbody" []
                  [Elem "tr" [("key", "0")] []; Elem "tr" [("key", "1")] []] ])
  ∧ grid [] rows = Some [[]; []].
Proof.
  intros rows. split; [discriminate|].
  apply (empty_columns_table_skeleton rows). discriminate.
Defined.

(** C9, refuted as stated.  With no columns and two rows the renderer
    does not render nothing: it emits a table element with a header row
    and two body rows. *)
Lemma empty_columns_render_a_table :
  ∃ table, rows_view [] [[("a", JNum 1)]; [("a", JNum 2)]] = Some table
    ∧ tag_of table = "table"
    ∧ occurs "tr" table = true
    ∧ length (grid_of table) = 2.
Proof. eexists. repeat split. Qed.

(** C7 (amended).  The summary block is rendered exactly when the summary
    is a string that is not empty; nothing is trimmed.  When rendered, the
    block hands the summary to the markdown component unchanged. *)
Theorem summary_block_rendered_iff (summary : optional_string) :
  (summary_block summary ≠ [] ↔ ∃ s, summary = Str s ∧ s ≠ "")
  ∧ ∀ s, summary = Str s → s ≠ "" →
      summary_block summary
      = [Elem "div" [("style", "marginTop: 16")]
           [ Elem "div" [className "section-label"] [Text "Markdown table"];
             Elem "div" [className "table-wrapper"] [ReactMarkdown s] ]].
Proof.
  split.
  - destruct summary as [| |s]; simpl.
    + split; [done|]. by intros (s & ? & _).
    + split; [done|]. by intros (s & ? & _).
    + destruct (decide (s = "")) as [->|Hs].
      * split; [done|]. intros (s & [= <-] & Hs). done.
      * split; [eauto|done].
  - intros s -> Hs. simpl. by rewrite decide_False.
Qed.

Lemma summary_block_rendered_iff_witness :
  let table := "| a | b |" in
  (summary_block (Str table) ≠ [] ↔ ∃ s, Str table = Str s ∧ s ≠ "")
  ∧ summary_block (Str table)
    = [Elem "div" [("style", "marginTop: 16")]
         [ Elem "div" [className "section-label"] [Text "Markdown table"];
           Elem "div" [className "table-wrapper"] [ReactMarkdown table] ]]
  ∧ summary_block Null = [] ∧ summary_block Absent = [] ∧ summary_block (Str "") = [].
Proof.
  intros table.
  destruct (summary_block_rendered_iff (Str table)) as [Hiff Hshape].
  split; [exact Hiff|]. split; [|done].
  apply (Hshape table); [reflexivity|discriminate].
Defined.

(** C7, refuted as stated.  A summary of three spaces is empty after
    trimming, and its block is rendered all the same. *)
Lemma blank_summary_is_rendered :
  present "   " = false
  ∧ summary_block (Str "   ")
    = [Elem "div" [("style", "marginTop: 16")]
         [ Elem "div" [className "section-label"] [Text "Markdown table"];
           Elem "div" [className "table-wrapper"] [ReactMarkdown "   "] ]].
Proof. split; reflexivity. Qed.

(** C10 (amended).  A cell is [String(v ?? '')] for the looked-up value
    [v]: [null] and [undefined] alone are replaced by the empty string and
    every other value goes through [String()], so [false] renders as
    ["false"], a number as its decimal digits ([0] as ["0"]), a string as
    itself, an array as its elements joined by commas with [null] elements
    empty, an object as ["[object Object]"] unless an own [toString] makes
    the conversion throw, and an inherited function as its source text.
    The cell is empty exactly for [null] and [undefined], for the empty
    string, and for an array that is empty or holds one such value. *)
Theorem cell_is_String_of_lookup row col :
  cell row col
  = match Get row col with
    | JUndefined | JNull => Some ""
    | JBool true => Some "true"
    | JBool false => Some "false"
    | JNumber n => Some (pretty (integer n))
    | JStr s => Some s
    | JArr items =>
        join "," <$> mapM (λ x, if nullish x then Some "" else ToString x) items
    | JObj props =>
        if bool_decide (is_Some (own props "toString")) then None
        else Some "[object Object]"
    | JNative name => Some ("function " +:+ name +:+ "() { [native code] }")
    end
  ∧ (cell row col = Some "" ↔ blank (Get row col) = true).
Proof.
  split.
  - rewrite cell_unfold. destruct (Get row col) as [| |[|]|n|s|items|props|name];
      try reflexivity.
    simpl. by destruct (own props "toString").
  - rewrite cell_unfold. apply blank_spec.
Qed.

Lemma cell_is_String_of_lookup_witness :
  let row : object :=
    [("flag", JBool false); ("yes", JBool true); ("n", JNum 0); ("debt", JNum (-12));
     ("gone", JNull); ("s", JStr ""); ("name", JStr "Ada");
     ("tags", JArr [JNum 1; JNull; JStr "x"]); ("none", JArr []);
     ("meta", JObj [("k", JNum 1)])] in
  cell row "flag" = Some "false"
  ∧ cell row "yes" = Some "true"
  ∧ cell row "n" = Some "0"
  ∧ cell row "debt" = Some "-12"
  ∧ cell row "gone" = Some ""
  ∧ cell row "absent" = Some ""
  ∧ cell row "s" = Some ""
  ∧ cell row "name" = Some "Ada"
  ∧ cell row "tags" = Some "1,,x"
  ∧ cell row "none" = Some ""
  ∧ cell row "meta" = Some "[object Object]"
  ∧ (cell row "n" = Some "" ↔ false = true)
  ∧ (cell row "none" = Some "" ↔ true = true).
Proof.
  intros row.
  repeat match goal with
         | |- cell row ?col = _ ∧ _ =>
             split; [exact (proj1 (cell_is_String_of_lookup row col))|]
         end.
  split.
  - exact (proj2 (cell_is_String_of_lookup row "n")).
  - exact (proj2 (cell_is_String_of_lookup row "none")).
Defined.

(** C10, refuted as stated.  The empty string is rendered for values
    that are neither [null] nor missing: an own empty string, an own empty
    array, and an own array holding just [null]. *)
Lemma non_null_values_render_empty :
  let row : object := [("s", JStr ""); ("none", JArr []); ("one", JArr [JNull])] in
  own row "s" = Some (JStr "") ∧ cell row "s" = Some ""
  ∧ own row "none" = Some (JArr []) ∧ cell row "none" = Some ""
  ∧ own row "one" = Some (JArr [JNull]) ∧ cell row "one" = Some "".
Proof. repeat split. Qed.

End Rendering.

(* ===================================================================== *)
(** ** More on [handleSubmit] *)
(* ===================================================================== *)

Section Handler.
Context {D : Type}.
Implicit Types (st : State D) (reply : promise (Response D)) (res : Response D).

(** X1.  A submission that is answered before anything else happens
    leaves a state that depends on the two form fields and on the reply
    only: whatever response or error was displayed before is gone, a
    success shows without an error and a failure without a response. *)
Theorem submission_replaces_display st reply :
  handleSubmit_resume reply (handleSubmit_begin st).1
  = mkState (dbPath st) (question st) false (failure_of reply) (payload_of reply)
  ∧ (is_Some (payload_of reply) → failure_of reply = None)
  ∧ (is_Some (failure_of reply) → payload_of reply = None).
Proof.
  split.
  - unfold handleSubmit_resume, failure_of, payload_of, catch_block.
    by destruct (try_block reply).
  - destruct (payload_xor_failure reply) as [[? ->]|[-> ?]];
      split; try done; by intros [? ?].
Qed.

(** X2.  The status picks the one reader of the body.  For a status
    outside 200-299 the handler never looks at [res.json()], and for a
    status inside it never looks at [res.text()]: replies that agree on
    the status and on the reader in use end in the same state. *)
Theorem status_selects_body_reader st res res' :
  status res = status res' →
  (if ok res then json res = json res' else text res = text res') →
  handleSubmit_resume (Fulfilled res) st = handleSubmit_resume (Fulfilled res') st.
Proof.
  intros Hstatus Hbody.
  assert (ok res' = ok res) as Hok by (unfold ok; by rewrite Hstatus).
  unfold handleSubmit_resume, try_block. rewrite Hok, <-Hstatus.
  destruct (ok res); simpl; by rewrite Hbody.
Qed.

(** X3.  Whenever a promise of the exchange rejects (the [fetch] itself,
    [res.json()] of a 200-299 reply, or [res.text()] of any other reply)
    the error becomes the [message] of the rejection, or ["Unknown error"]
    when it has none; the displayed response is left as it was and
    "pending" is over. *)
Theorem rejection_message st reply err :
  reply = Rejected err
  ∨ (∃ res, reply = Fulfilled res ∧ ok res = true ∧ json res = Rejected err)
  ∨ (∃ res, reply = Fulfilled res ∧ ok res = false ∧ text res = Rejected err) →
  let st' := handleSubmit_resume reply st in
  error st' = Some (default "Unknown error" (message err))
  ∧ response st' = response st
  ∧ loading st' = false.
Proof.
  intros [->|[(res & -> & Hok & Hbody)|(res & -> & Hok & Hbody)]];
    unfold handleSubmit_resume, try_block; rewrite ?Hok, ?Hbody; done.
Qed.

End Handler.

Lemma submission_replaces_display_witness :
  let shown : State ApiResponse :=
    setError (Some "stale") (setResponse (Some first_answer) initial) in
  handleSubmit_resume (replied 200 "{}" (Fulfilled second_answer)) (handleSubmit_begin shown).1
  = setResponse (Some second_answer) initial
  ∧ handleSubmit_resume unreachable (handleSubmit_begin shown).1
    = setError (Some "Failed to fetch") initial.
Proof.
  intros shown. split.
  - exact (proj1 (submission_replaces_display shown
                    (replied 200 "{}" (Fulfilled second_answer)))).
  - exact (proj1 (submission_replaces_display shown unreachable)).
Defined.

Lemma status_selects_body_reader_witness :
  let res : Response ApiResponse :=
    mkResponse 500 (Fulfilled "boom") (Fulfilled first_answer) in
  let res' : Response ApiResponse :=
    mkResponse 500 (Fulfilled "boom") (Rejected not_json) in
  status res = status res'
  ∧ text res = text res'
  ∧ handleSubmit_resume (Fulfilled res) initial
    = handleSubmit_resume (Fulfilled res') initial.
Proof.
  intros res res'. split; [reflexivity|]. split; [reflexivity|].
  apply (status_selects_body_reader initial res res'); reflexivity.
Defined.

Lemma rejection_message_witness :
  let reply : promise (Response ApiResponse) :=
    replied 200 "<html>" (Rejected (Thrown None)) in
  let st' := handleSubmit_resume reply (handleSubmit_begin initial).1 in
  error st' = Some "Unknown error" ∧ response st' = None ∧ loading st' = false.
Proof.
  intros reply st'.
  apply (rejection_message (handleSubmit_begin initial).1 reply (Thrown None)).
  right. left. eexists. split; [reflexivity|]. split; reflexivity.
Defined.

Section Views.
Implicit Types (st : State ApiResponse) (reply : promise (Response ApiResponse)).



(** X5.  While a submission is pending nothing of the previous outcome
    is on screen: no banner, a results card with its title only, and the
    button disabled under the label "Thinking with SQL…".  Rendering in
    this state cannot throw. *)
Theorem pending_view st :
  let st' := (handleSubmit_begin st).1 in
  error_banner (error st') = []
  ∧ results_card st'
    = Some (Elem "section" [className "card results-card"]
              [Elem "h2" [className "card-title"] [Text "Results"]])
  ∧ submit_button st'
    = Elem "button" [className "primary-btn"; ("type", "submit"); ("disabled", "")]
        [Text "Thinking with SQL…"]
  ∧ is_Some (App st').
Proof. repeat split. eexists. reflexivity. Qed.

End Views.


(* ===================================================================== *)
(** ** More on the event loop *)
(* ===================================================================== *)

Section Calls.
Context {D : Type}.
Implicit Types (st : State D) (s : System D) (e : event D) (trace : list (event D)).

Lemma step_calls e s s' :
  step e s = Some s' →
  calls s' = calls s ++ (if is_Submit e then [request_body (ui s)] else []).
Proof.
  destruct e as [v|v| |id reply]; simpl; intros Hstep.
  - simplify_eq. by rewrite app_nil_r.
  - simplify_eq. by rewrite app_nil_r.
  - by simplify_eq.
  - destruct (inflight s !! id); simplify_eq. by rewrite app_nil_r.
Qed.

Lemma step_inflight_logged e s s' :
  step e s = Some s' → inflight_logged s → inflight_logged s'.
Proof.
  unfold inflight_logged.
  destruct e as [v|v| |id reply]; simpl; intros Hstep Hs; simplify_eq; try done.
  - cbn [inflight calls]. intros id body. rewrite lookup_insert.
    case_decide as Hid.
    + intros [= <-]. subst id. by rewrite lookup_app_r, Nat.sub_diag.
    + intros Hin. apply lookup_app_l_Some. by apply Hs.
  - destruct (inflight s !! id) eqn:Hid; simplify_eq. cbn [inflight calls].
    intros id' body. rewrite lookup_delete. case_decide; [done|]. apply Hs.
Qed.

Lemma step_fixed_parameters e s s' :
  step e s = Some s' →
  Forall fixed_parameters (calls s) → Forall fixed_parameters (calls s').
Proof.
  intros Hstep Hs. rewrite (step_calls e s s' Hstep). apply Forall_app. split; [done|].
  destruct (is_Submit e); by repeat constructor.
Qed.

Lemma run_calls_length trace s s' :
  run trace s = Some s' → length (calls s') = length (calls s) + submissions trace.
Proof.
  revert s. induction trace as [|e trace IH]; intros s; simpl.
  - intros [= ->]. unfold submissions. simpl. lia.
  - destruct (step e s) as [s1|] eqn:He; simpl; [|done]. intros Hrun.
    rewrite (IH s1 Hrun), (step_calls e s s1 He), length_app.
    unfold submissions. rewrite filter_cons.
    destruct e; simpl; try rewrite decide_True by done;
      try rewrite decide_False by done; simpl; lia.
Qed.

(** X6.  In every run of the event loop, [fetch] is called once per
    call of [handleSubmit] and at no other time; every request carries the
    dialect ["sqlite"] and the token limit 512; and a call that is still
    in flight is the logged call of that name, so its body is the one
    composed when it was submitted, whatever was typed since. *)
Theorem calls_follow_submissions st trace s :
  run trace (mount st) = Some s →
  length (calls s) = submissions trace
  ∧ Forall (λ body, dialect body = "sqlite" ∧ max_tokens body = 512) (calls s)
  ∧ ∀ id body, inflight s !! id = Some body → calls s !! id = Some body.
Proof.
  intros Hrun. split; [|split].
  - by rewrite (run_calls_length trace (mount st) s Hrun).
  - apply (run_invariant (λ s, Forall fixed_parameters (calls s)) trace (mount st));
      [|done|by constructor].
    intros e s1 s2. apply step_fixed_parameters.
  - apply (run_invariant inflight_logged trace (mount st)); [|done|].
    + intros e s1 s2. apply step_inflight_logged.
    + intros id body. simpl. by rewrite lookup_empty.
Qed.

Lemma run_without_changes trace s s' :
  Forall (λ e, is_Change e = false) trace →
  run trace s = Some s' →
  dbPath (ui s') = dbPath (ui s)
  ∧ question (ui s') = question (ui s)
  ∧ calls s' = calls s ++ replicate (submissions trace) (request_body (ui s)).
Proof.
  intros Htrace. revert s.
  induction Htrace as [|e trace He _ IH]; intros s; simpl.
  - intros [= ->]. unfold submissions. simpl. by rewrite app_nil_r.
  - destruct (step e s) as [s1|] eqn:Hstep; simpl; [|done]. intros Hrun.
    destruct (IH s1 Hrun) as (Hdb & Hq & Hcalls).
    assert (dbPath (ui s1) = dbPath (ui s) ∧ question (ui s1) = question (ui s))
      as [Hdb1 Hq1].
    { destruct e as [v|v| |id reply]; simpl in *; simplify_eq; try done.
      destruct (inflight s !! id); simplify_eq. cbn [ui].
      by destruct (resume_fields reply (ui s)) as (_ & _ & _ & ? & ?). }
    rewrite Hdb, Hq. split; [done|]. split; [done|].
    rewrite Hcalls, (step_calls e s s1 Hstep). unfold request_body.
    rewrite Hdb1, Hq1, <-app_assoc. f_equal.
    unfold submissions. rewrite filter_cons.
    destruct e; simpl in *; done.
Qed.

(** X7.  [handleSubmit] never writes the form fields, and nothing is
    remembered between submissions: in a run without typing, the fields
    stay as mounted and every submission sends the same request again. *)
Theorem resubmission_repeats_request st trace s :
  Forall (λ e, is_Change e = false) trace →
  run trace (mount st) = Some s →
  dbPath (ui s) = dbPath st
  ∧ question (ui s) = question st
  ∧ calls s
    = replicate (submissions trace) (mkBody (dbPath st) (question st) "sqlite" 512).
Proof. intros Htrace Hrun. exact (run_without_changes trace (mount st) s Htrace Hrun). Qed.

End Calls.

Lemma calls_follow_submissions_witness :
  let trace : list (event ApiResponse) :=
    [Submit; ChangeQuestion "How many orders?"; Submit; Settle 0 unreachable] in
  ∃ s, run trace (mount initial) = Some s
    ∧ length (calls s) = 2
    ∧ Forall (λ body, dialect body = "sqlite" ∧ max_tokens body = 512) (calls s)
    ∧ ∀ id body, inflight s !! id = Some body → calls s !! id = Some body.
Proof.
  intros trace.
  destruct (run trace (mount initial)) as [s|] eqn:Hrun; [|discriminate Hrun].
  exists s. split; [reflexivity|].
  exact (calls_follow_submissions initial trace s Hrun).
Defined.

Lemma resubmission_repeats_request_witness :
  let trace : list (event ApiResponse) :=
    [Submit; Settle 0 (replied 200 "{}" (Fulfilled first_answer)); Submit] in
  ∃ s, run trace (mount initial) = Some s
    ∧ dbPath (ui s) = dbPath (initial (D:=ApiResponse))
    ∧ question (ui s) = question (initial (D:=ApiResponse))
    ∧ calls s = [request_body (initial (D:=ApiResponse));
                 request_body (initial (D:=ApiResponse))].
Proof.
  intros trace.
  destruct (run trace (mount initial)) as [s|] eqn:Hrun; [|discriminate Hrun].
  exists s. split; [reflexivity|].
  apply (resubmission_repeats_request initial trace s); [|exact Hrun].
  repeat constructor.
Defined.

Section Button.
Context {D : Type}.
Implicit Types (st : State D) (s : System D) (e : event D) (trace : list (event D)).

Lemma through_button_invariant (P : System D → Prop) trace s s' :
  (∀ e s1 s2, (e = Submit → loading (ui s1) = false) →
     step e s1 = Some s2 → P s1 → P s2) →
  through_button trace s → run trace s = Some s' → P s → P s'.
Proof.
  intros Hstep. revert s. induction trace as [|e trace IH]; intros s; simpl.
  - by intros _ [= ->].
  - intros [Hbutton Hrest]. destruct (step e s) as [s1|] eqn:He; simpl; [|done].
    intros Hrun Hs. eapply IH; [done..|]. by eapply Hstep.
Qed.

(** Replies only arrive while "pending" shows, and then neither result
    cell is set. *)
Lemma step_serial e s s' :
  (e = Submit → loading (ui s) = false) →
  step e s = Some s' →
  one_at_a_time s ∧ pending_has_call s
    ∧ (loading (ui s) = true → response (ui s) = None ∧ error (ui s) = None)
    ∧ ¬ (is_Some (response (ui s)) ∧ is_Some (error (ui s))) →
  one_at_a_time s' ∧ pending_has_call s'
    ∧ (loading (ui s') = true → response (ui s') = None ∧ error (ui s') = None)
    ∧ ¬ (is_Some (response (ui s')) ∧ is_Some (error (ui s'))).
Proof.
  intros Hbutton Hstep (Hone & Hcall & Hclear & Hboth).
  split; [by eapply step_one_at_a_time|].
  split; [by eapply step_pending_has_call|].
  destruct e as [v|v| |id reply]; simpl in Hstep.
  - by simplify_eq.
  - by simplify_eq.
  - simplify_eq. split; [done|]. simpl. by intros [[? ?] _].
  - destruct (inflight s !! id) as [body|] eqn:Hid; simplify_eq. cbn [ui].
    destruct (resume_fields reply (ui s)) as (Hl & Hr & He & _).
    split; [congruence|].
    assert (loading (ui s) = true) as Hpending.
    { destruct (loading (ui s)) eqn:Hload; [done|].
      destruct Hone as [Hidle _]. rewrite (Hidle Hload), lookup_empty in Hid. done. }
    destruct (Hclear Hpending) as [Hr0 He0].
    rewrite Hr, He, Hr0, He0.
    destruct (payload_xor_failure reply) as [[_ ->]|[-> _]]; simpl.
    + by intros [_ [? ?]].
    + by intros [[? ?] _].
Qed.

(** X8.  With the disabled button as the only gate, submissions made
    while the button is enabled never overlap: at most one call is in
    flight, "pending" shows exactly while one is, neither a response nor
    an error is held while "pending" shows, and the component never holds
    a response and an error together. *)
Theorem button_serialises_submissions st trace s :
  loading st = false →
  ¬ (is_Some (response st) ∧ is_Some (error st)) →
  through_button trace (mount st) →
  run trace (mount st) = Some s →
  (loading (ui s) = true ↔ inflight s ≠ ∅)
  ∧ (∀ id id', is_Some (inflight s !! id) → is_Some (inflight s !! id') → id = id')
  ∧ (loading (ui s) = true → response (ui s) = None ∧ error (ui s) = None)
  ∧ ¬ (is_Some (response (ui s)) ∧ is_Some (error (ui s))).
Proof.
  intros Hst Hclean Hbutton Hrun.
  assert (one_at_a_time s ∧ pending_has_call s
          ∧ (loading (ui s) = true → response (ui s) = None ∧ error (ui s) = None)
          ∧ ¬ (is_Some (response (ui s)) ∧ is_Some (error (ui s))))
    as ([Hidle Hone] & Hcall & Hclear & Hboth).
  { apply (through_button_invariant
             (λ s, one_at_a_time s ∧ pending_has_call s
                   ∧ (loading (ui s) = true → response (ui s) = None ∧ error (ui s) = None)
                   ∧ ¬ (is_Some (response (ui s)) ∧ is_Some (error (ui s))))
             trace (mount st) s); [|done..|].
    - intros e s1 s2. apply step_serial.
    - split; [|split; [|split; [|done]]].
      + split; [done|]. intros id id'. simpl. rewrite lookup_empty. by intros [? ?].
      + intros Hl. simpl in Hl. congruence.
      + simpl. congruence. }
  split; [|by split]. split; [apply Hcall|].
  intros Hne. destruct (loading (ui s)) eqn:Hl; [done|]. by destruct Hne, Hidle.
Qed.

End Button.

Lemma button_serialises_submissions_witness :
  let trace : list (event ApiResponse) :=
    [Submit; ChangeQuestion "How many orders?"; Settle 0 unreachable; Submit] in
  ∃ s, run trace (mount initial) = Some s
    ∧ (loading (ui s) = true ↔ inflight s ≠ ∅)
    ∧ (∀ id id', is_Some (inflight s !! id) → is_Some (inflight s !! id') → id = id')
    ∧ (loading (ui s) = true → response (ui s) = None ∧ error (ui s) = None)
    ∧ ¬ (is_Some (response (ui s)) ∧ is_Some (error (ui s))).
Proof.
  intros trace.
  destruct (run trace (mount initial)) as [s|] eqn:Hrun; [|discriminate Hrun].
  exists s. split; [reflexivity|].
  apply (button_serialises_submissions initial trace s);
    [reflexivity | by intros [[? ?] _] | | exact Hrun].
  repeat split; intros; done.
Defined.

(* ===================================================================== *)
(** ** More on the renderer *)
(* ===================================================================== *)

Section Conversion.
Implicit Types (row : object) (col : string) (columns : list string)
  (rows : list object) (v : jsval) (r : ApiResponse).

Lemma ToString_throws v : ToString v = None ↔ throws v = true.
Proof.
  revert v. fix IH 1. intros v. destruct v as [| |b|z|s|items|props|name].
  - split; discriminate.
  - split; discriminate.
  - destruct b; split; discriminate.
  - split; discriminate.
  - split; discriminate.
  - rewrite ToString_JArr, fmap_None. cbn [throws].
    induction items as [|x items IHitems]; [split; discriminate|].
    rewrite mapM_cons_None, IHitems, orb_true_iff.
    apply or_iff_compat_r. destruct (nullish x) eqn:Hx.
    + destruct x; try discriminate Hx; split; discriminate.
    + apply IH.
  - simpl. destruct (own props "toString") as [w|]; simpl.
    + done.
    + split; discriminate.
  - split; discriminate.
Qed.

Lemma cell_None row col : cell row col = None ↔ throws (Get row col) = true.
Proof.
  rewrite cell_unfold. destruct (nullish (Get row col)) eqn:Hn.
  - destruct (Get row col); try done; simpl; split; discriminate.
  - apply ToString_throws.
Qed.

Lemma grid_None columns rows :
  grid columns rows = None
  ↔ Exists (λ row, Exists (λ col, throws (Get row col) = true) columns) rows.
Proof.
  unfold grid. rewrite mapM_None, !Exists_exists.
  split; intros (row & Hrow & Hcols); exists row; (split; [done|]).
  - apply mapM_None, Exists_exists in Hcols as (col & Hcol & Hcell).
    apply Exists_exists. exists col. by rewrite <-cell_None.
  - apply Exists_exists in Hcols as (col & Hcol & Hthrows).
    apply mapM_None, Exists_exists. exists col. by rewrite cell_None.
Qed.

Lemma rows_view_None columns rows :
  rows_view columns rows = None ↔ grid columns rows = None.
Proof.
  unfold rows_view. destruct (decide (length rows = 0)) as [Hlen|Hlen].
  - destruct rows; [|done]. split; discriminate.
  - rewrite <-results_table_grid. by rewrite fmap_None.
Qed.

Lemma App_None (st : State ApiResponse) :
  App st = None
  ↔ ∃ r, response st = Some r ∧ grid (columns r) (rows r) = None.
Proof.
  unfold App, results_card, response_view, table_wrapper.
  destruct (response st) as [r|].
  - destruct (rows_view (columns r) (rows r)) as [view|] eqn:Hview; simpl.
    + split; [discriminate|]. intros (r' & [= <-] & Hgrid).
      apply rows_view_None in Hgrid. congruence.
    + split; [|done]. intros _. exists r. by rewrite <-rows_view_None.
  - simpl. split; [discriminate|]. by intros (r & ? & _).
Qed.

(** X9.  For a state of the declared type (the response, if any, has
    the shape of [ApiResponse]): with no response on display the
    component always renders; with a response on display it renders when
    [String()] can convert every value the rows hold under the listed
    columns, and it throws when some row holds there an object with an own
    [toString] key or an array holding one. *)
Theorem render_and_unconvertible_cells (st : State ApiResponse) :
  (response st = None → is_Some (App st))
  ∧ (∀ r, response st = Some r →
       (∀ row col, row ∈ rows r → col ∈ columns r → throws (Get row col) = false) →
       is_Some (App st))
  ∧ (∀ r row col, response st = Some r →
       row ∈ rows r → col ∈ columns r → throws (Get row col) = true →
       App st = None).
Proof.
  split; [|split].
  - intros Hnone. destruct (App st) eqn:Happ; [by eexists|].
    apply App_None in Happ as (r & Hr & _). congruence.
  - intros r Hr Hcells. destruct (App st) eqn:Happ; [by eexists|].
    apply App_None in Happ as (r' & Hr' & Hgrid). simplify_eq.
    apply grid_None, Exists_exists in Hgrid as (row & Hrow & Hcols).
    apply Exists_exists in Hcols as (col & Hcol & Hthrows).
    rewrite (Hcells row col Hrow Hcol) in Hthrows. discriminate.
  - intros r row col Hr Hrow Hcol Hthrows. apply App_None. exists r. split; [done|].
    apply grid_None, Exists_exists. exists row. split; [done|].
    apply Exists_exists. eauto.
Qed.

End Conversion.

Lemma render_and_unconvertible_cells_witness :
  let cursed : object := [("a", JObj [("toString", JNum 1)])] in
  let r := mkApiResponse "SELECT a FROM t" [cursed] ["a"] Absent Absent in
  App (setResponse (Some r) initial) = None
  ∧ is_Some (App (setResponse (Some first_answer) initial))
  ∧ is_Some (App (initial (D:=ApiResponse))).
Proof.
  intros cursed r. split; [|split].
  - apply (proj2 (proj2 (render_and_unconvertible_cells (setResponse (Some r) initial)))
             r cursed "a"); [reflexivity| | |].
    + apply list_elem_of_here.
    + apply list_elem_of_here.
    + vm_compute. reflexivity.
  - apply (proj1 (proj2 (render_and_unconvertible_cells
                           (setResponse (Some first_answer) initial))) first_answer);
      [reflexivity|].
    intros row col Hrow Hcol.
    apply list_elem_of_In in Hrow. apply list_elem_of_In in Hcol. simpl in Hrow, Hcol.
    destruct Hrow as [<-|[]]. destruct Hcol as [<-|[]]. reflexivity.
  - apply (proj1 (render_and_unconvertible_cells initial)). reflexivity.
Defined.

Section Columns.
Implicit Types (row : object) (col : string) (columns : list string)
  (rows : list object) (r : ApiResponse).

(** X10.  For column names that [Object.prototype] does not define, a
    table that renders has one body row per row and one cell per column,
    and the cell of row [i] under column [j] is [String()] of the row's
    own value under that name, or empty when the row has no such key or
    holds [null] there. *)
Theorem plain_columns_table columns rows table :
  Forall (λ col, own Object_prototype col = None) columns →
  rows ≠ [] →
  rows_view columns rows = Some table →
  length (grid_of table) = length rows
  ∧ Forall (λ texts, length texts = length columns) (grid_of table)
  ∧ ∀ i j row col, rows !! i = Some row → columns !! j = Some col →
      ∃ texts s, grid_of table !! i = Some texts ∧ texts !! j = Some s
        ∧ match own row col with
          | Some v => if nullish v then s = "" else ToString v = Some s
          | None => s = ""
          end.
Proof.
  intros Hplain Hrows Hview.
  pose proof (rows_view_grid columns rows Hrows) as Hgrid.
  rewrite Hview in Hgrid. simpl in Hgrid. symmetry in Hgrid.
  destruct (grid_length columns rows _ Hgrid) as [Hm Hn].
  split; [done|]. split; [done|].
  intros i j row col Hrow Hcol.
  destruct (grid_lookup columns rows _ i j row col Hgrid Hrow Hcol)
    as (texts & s & Htexts & Hs & Hcell).
  exists texts, s. split; [done|]. split; [done|].
  rewrite cell_spec_cell in Hcell.
  - unfold spec_cell in Hcell. destruct (own row col) as [v|]; [|congruence].
    destruct (nullish v); congruence.
  - right. eapply Forall_forall in Hplain; [done|]. by eapply list_elem_of_lookup_2.
Qed.

Lemma tr_agree columns idx row row' :
  (∀ col, col ∈ columns → own row col = own row' col) →
  tr columns idx row = tr columns idx row'.
Proof.
  intros Hagree. rewrite !tr_cells. f_equal.
  apply Forall_mapM_ext, Forall_forall. intros col Hcol.
  unfold cell, Get. by rewrite (Hagree col Hcol).
Qed.

Lemma body_rows_agree columns rows rows' (number : nat → nat) :
  Forall2 (λ row row', ∀ col, col ∈ columns → own row col = own row' col) rows rows' →
  imap (λ idx, tr columns (number idx)) rows
  = imap (λ idx, tr columns (number idx)) rows'.
Proof.
  intros Hrows. revert number.
  induction Hrows as [|row row' rows rows' Hrow _ IH]; intros number; [done|].
  rewrite !imap_cons. f_equal; [by apply tr_agree|]. apply (IH (number ∘ S)).
Qed.

(** X11.  What is rendered for a row depends only on the row's own
    values under the listed columns: keys that are not in [columns] and
    the order in which a row lists its keys never reach the output. *)
Theorem rows_view_reads_listed_columns_only columns rows rows' :
  Forall2 (λ row row', ∀ col, col ∈ columns → own row col = own row' col) rows rows' →
  rows_view columns rows = rows_view columns rows'.
Proof.
  intros Hrows. unfold rows_view, results_table.
  rewrite (Forall2_length _ _ _ Hrows).
  destruct (decide (length rows' = 0)); [done|].
  pose proof (body_rows_agree columns rows rows' id Hrows) as Hbody.
  unfold id in Hbody.
  assert (imap (tr columns) rows = imap (tr columns) rows') as -> by exact Hbody.
  done.
Qed.

(** X12.  The header of a rendered table lists [columns] in their
    order, and the number in the label above it, "Rows (n)", is the number
    of rows of the response and of body rows of the table. *)
Theorem table_header_and_count r wrapper :
  rows r ≠ [] →
  table_wrapper r = Some wrapper →
  ∃ table,
    children_of wrapper
    = [ Elem "div" [className "section-label"]
          [Text "Rows ("; Text (pretty (length (rows r))); Text ")"];
        table ]
    ∧ header_of table = columns r
    ∧ length (grid_of table) = length (rows r).
Proof.
  intros Hrows. unfold table_wrapper.
  destruct (rows_view (columns r) (rows r)) as [table|] eqn:Hview; [|done].
  intros [= <-]. exists table. split; [done|].
  pose proof (rows_view_grid (columns r) (rows r) Hrows) as Hgrid.
  rewrite Hview in Hgrid. simpl in Hgrid. symmetry in Hgrid.
  split; [|by apply (grid_length (columns r) (rows r))].
  unfold rows_view in Hview. rewrite decide_False in Hview by (by destruct (rows r)).
  unfold results_table in Hview.
  destruct (mapM id (imap (tr (columns r)) (rows r))) as [trs|]; [|done].
  simpl in Hview. injection Hview as <-.
  unfold header_of, cells_of. cbn [children_of].
  clear. induction (columns r) as [|col cols IH]; [done|]. simpl. by f_equal.
Qed.

End Columns.

Lemma plain_columns_table_witness :
  let columns := ["a"; "b"] in
  let rows : list object := [[("a", JNum 1); ("b", JNull)]; [("a", JNum 2)]] in
  ∃ table, rows_view columns rows = Some table
    ∧ grid_of table = [["1"; ""]; ["2"; ""]]
    ∧ length (grid_of table) = length rows
    ∧ Forall (λ texts, length texts = length columns) (grid_of table).
Proof.
  intros columns rows.
  destruct (rows_view columns rows) as [table|] eqn:Hview; [|discriminate Hview].
  exists table. split; [reflexivity|].
  split; [by injection Hview as <-|].
  assert (Forall (λ col, own Object_prototype col = None) columns) as Hplain
    by (by repeat constructor).
  destruct (plain_columns_table columns rows table Hplain ltac:(discriminate) Hview)
    as (Hm & Hn & _).
  by split.
Defined.

Lemma rows_view_reads_listed_columns_only_witness :
  let columns := ["a"; "b"] in
  let rows : list object := [[("a", JNum 1); ("b", JNull)]] in
  let rows' : list object := [[("internal_id", JNum 7); ("b", JNull); ("a", JNum 1)]] in
  rows_view columns rows = rows_view columns rows'.
Proof.
  intros columns rows rows'.
  apply (rows_view_reads_listed_columns_only columns rows rows').
  repeat constructor. intros col Hcol.
  apply list_elem_of_In in Hcol. simpl in Hcol.
  destruct Hcol as [<-|[<-|[]]]; reflexivity.
Defined.

Lemma table_header_and_count_witness :
  ∃ wrapper table,
    table_wrapper first_answer = Some wrapper
    ∧ children_of wrapper
      = [ Elem "div" [className "section-label"] [Text "Rows ("; Text "1"; Text ")"];
          table ]
    ∧ header_of table = ["n"]
    ∧ length (grid_of table) = 1.
Proof.
  destruct (table_wrapper first_answer) as [wrapper|] eqn:Hw; [|discriminate Hw].
  destruct (table_header_and_count first_answer wrapper ltac:(discriminate) Hw)
    as (table & Hchildren & Hheader & Hlen).
  exists wrapper, table. split; [reflexivity|]. by split.
Defined.

Section Typing.
Context {D : Type}.
Implicit Types (s : System D) (reply : promise (Response D)).

(** X13.  Typing while a request is pending neither cancels nor
    changes it: the call keeps the body it was sent with, and its reply is
    applied as usual, next to the newly typed question. *)
Theorem typing_while_pending s q reply :
  ∃ s', run [Submit; ChangeQuestion q; Settle (length (calls s)) reply] s = Some s'
    ∧ calls s' = calls s ++ [request_body (ui s)]
    ∧ inflight s' !! length (calls s) = None
    ∧ question (ui s') = q
    ∧ dbPath (ui s') = dbPath (ui s)
    ∧ response (ui s') = payload_of reply
    ∧ error (ui s') = failure_of reply
    ∧ loading (ui s') = false.
Proof.
  eexists. split.
  { unfold run. rewrite step_Submit. cbn [mbind option_bind step].
    cbn [inflight]. rewrite lookup_insert_eq. cbn [mbind option_bind]. reflexivity. }
  cbn [calls inflight ui]. split; [done|]. split; [apply lookup_delete_eq|].
  unfold handleSubmit_resume, payload_of, failure_of, catch_block.
  by destruct (try_block reply).
Qed.

End Typing.

Section Success.
Implicit Types (st : State ApiResponse) (r : ApiResponse).


Lemma body_rows_keys columns rows (number : nat → nat) trs :
  mapM id (imap (λ idx, tr columns (number idx)) rows) = Some trs →
  key_of <$> trs = (λ idx, Some (pretty (number idx))) <$> seq 0 (length rows).
Proof.
  revert number trs. induction rows as [|row rows IH]; intros number trs.
  - by intros [= <-].
  - rewrite imap_cons. cbn [mapM]. unfold id at 1.
    destruct (tr columns (number 0) row) as [n|] eqn:Hn; [|done]. simpl.
    destruct (mapM _ (imap _ rows)) as [trs'|] eqn:Hrest; simpl; [|done].
    intros [= <-]. cbn [length seq]. rewrite !fmap_cons. f_equal.
    + rewrite tr_cells in Hn. destruct (mapM (cell row) columns); [|done].
      by injection Hn as <-.
    + rewrite (IH (number ∘ S) trs' Hrest), <-fmap_S_seq, <-list_fmap_compose. done.
Qed.

(** X15.  The body rows of a rendered table are keyed by their position,
    ["0"], ["1"], ... in order, so no two rows share a key. *)
Theorem body_rows_keyed_by_index columns rows table :
  results_table columns rows = Some table →
  ∃ thead trs,
    children_of table = [thead; Elem "tbody" [] trs]
    ∧ key_of <$> trs = (λ idx : nat, Some (pretty idx)) <$> seq 0 (length rows)
    ∧ NoDup (key_of <$> trs).
Proof.
  unfold results_table.
  destruct (mapM id (imap (tr columns) rows)) as [trs|] eqn:Htrs; [|done].
  simpl. intros [= <-]. eexists _, trs. split; [done|].
  pose proof (body_rows_keys columns rows id trs Htrs) as Hkeys. unfold id in Hkeys.
  split; [done|]. rewrite Hkeys.
  apply NoDup_fmap_2; [|apply NoDup_seq].
  intros i j [= Hij]. by apply (inj pretty) in Hij.
Qed.

End Success.


Lemma body_rows_keyed_by_index_witness :
  let rows : list object := [[("a", JNum 1)]; [("a", JNum 2)]; []] in
  ∃ table thead trs,
    results_table ["a"] rows = Some table
    ∧ children_of table = [thead; Elem "tbody" [] trs]
    ∧ key_of <$> trs = [Some "0"; Some "1"; Some "2"]
    ∧ NoDup (key_of <$> trs).
Proof.
  intros rows.
  destruct (results_table ["a"] rows) as [table|] eqn:Htable; [|discriminate Htable].
  destruct (body_rows_keyed_by_index ["a"] rows table Htable)
    as (thead & trs & Hchildren & Hkeys & Hnodup).
  exists table, thead, trs. split; [reflexivity|]. by split.
Defined.
